(** * dash_sli: the SLI rabies model and its plotting callback (app.py)

    Shallow embedding of the computational core of [app.py]:
    - [ode_sys], the right-hand side of the three-compartment model;
    - [gera_grafico], the Dash callback that integrates the model on a fixed
      time grid and packs the solution into a Plotly figure;
    - the slider layout and the [@app.callback] wiring that feed it.

    Numbers.  The program computes with Python numbers (ints and floats
    coming from the sliders).  They are embedded twice.  The main embedding
    is over exact rationals [Qc]: the four field operations are the
    mathematical ones and [/] raises [ZeroDivisionError] on a zero divisor
    as in Python; it carries what does not depend on rounding (which values
    go where, what is raised and when, shapes and lengths).  The model
    [ode_sys] is embedded a second time over IEEE 754 binary64
    ([binary64.ode_sys]), and the statements that depend on how a result is
    rounded are made there.  Of the time grid, whose points numpy rounds,
    only the length, the end points, the order and the bounds are used.

    Libraries outside the repository.  [scipy.integrate.odeint] is a
    parameter of the development: the answer the integrator gives to a call
    at the time of that call, with the part of its documented contract that
    the callback relies on stated as hypotheses.  A small explicit-Euler
    integrator shows that the contract is satisfiable, and a variant that
    gives up early shows that the contract does not make the answer a
    function of the call.  [numpy.linspace],
    [ndarray.T] and the Plotly figure objects are modelled directly. *)

From Stdlib Require Import QArith Qcanon Sorting.Sorted Floats.
From stdpp Require Import base numbers option list strings gmap.

Open Scope Qc_scope.

(** ** Python values and exceptions *)

Module Py.

(** The exceptions that can travel through the modelled code. *)
Inductive exn : Type :=
| ZeroDivisionError
| ValueError
| TypeError
| LibraryError (msg : string).

Inductive result (A : Type) : Type :=
| Ok (a : A)
| Raise (e : exn).
Arguments Ok {A} a.
Arguments Raise {A} e.

#[global] Instance exn_eq_dec : EqDecision exn.
Proof. solve_decision. Defined.
#[global] Instance result_eq_dec {A : Type} `{EqDecision A} :
  EqDecision (result A).
Proof. solve_decision. Defined.

#[global] Instance result_ret : MRet result := λ A a, Ok a.
#[global] Instance result_bind : MBind result := λ A B f m,
  match m with
  | Ok a => f a
  | Raise e => Raise e
  end.

(** A rational literal [n/d]. *)
Definition num (n : Z) (d : positive) : Qc := Q2Qc (n # d).

(** Python's [int -> float] coercion of a count. *)
Definition of_nat (k : nat) : Qc := Q2Qc (inject_Z (Z.of_nat k)).

(** [x / y]: true division, raising on a zero divisor. *)
Definition truediv (x y : Qc) : result Qc :=
  if decide (y = 0) then Raise ZeroDivisionError else Ok (x / y).

(** [a, b, c = xs]: unpacking into exactly three targets. *)
Definition unpack3 {A : Type} (xs : list A) : result (A * A * A) :=
  match xs with
  | [a; b; c] => Ok (a, b, c)
  | _ => Raise ValueError
  end.

End Py.
Import Py.

(** ** The model: [ode_sys] (app.py, lines 161-166) *)

(** [def ode_sys(state, t, a, beta, mu, alpha, sigma, K)].  The local names
    [di_dt] and [dl_dt] are kept as they are in the source. *)
Definition ode_sys (state : list Qc) (t a beta mu alpha sigma K : Qc)
  : result (list Qc) :=
  '(s, l, i) ← unpack3 state;
  q1 ← truediv (a - mu) K;
  let ds_dt := (a - mu) * s - q1 * s * (s + i + l) - beta * s * i in
  q2 ← truediv (a - mu) K;
  let di_dt := beta * s * i - (sigma + mu + q2 * (s + l + i)) * l in
  q3 ← truediv (a - mu) K;
  let dl_dt := sigma * l - (alpha + mu + q3 * (s + l + i)) * i in
  mret [ds_dt; di_dt; dl_dt].

(** The equations as the specification writes them, with [N = S + L + I]. *)
Definition spec_N (S L I : Qc) : Qc := S + L + I.
Definition spec_dS (S L I a beta mu alpha sigma K : Qc) : Qc :=
  (a - mu) * S - ((a - mu) / K) * S * spec_N S L I - beta * S * I.
Definition spec_dL (S L I a beta mu alpha sigma K : Qc) : Qc :=
  beta * S * I - (sigma + mu + ((a - mu) / K) * spec_N S L I) * L.
Definition spec_dI (S L I a beta mu alpha sigma K : Qc) : Qc :=
  sigma * L - (alpha + mu + ((a - mu) / K) * spec_N S L I) * I.

(** ** The model in binary64

    The same body as [ode_sys], over IEEE 754 binary64 with
    round-to-nearest-even, which is what Python's [float] and numpy's
    [float64] compute: [+], [-] and [*] never raise (they overflow to an
    infinity or give a NaN), and [/] raises on a zero divisor of either
    sign.  Theorems that depend on how results are rounded are stated on
    this embedding. *)

Module binary64.

(** [x / y] on floats: [-0.0 == 0] holds, and a NaN divisor does not
    raise. *)
Definition truediv (x y : float) : result float :=
  if (y =? 0)%float then Raise ZeroDivisionError else Ok (x / y)%float.

Definition ode_sys (state : list float) (t a beta mu alpha sigma K : float)
  : result (list float) :=
  '(s, l, i) ← unpack3 state;
  q1 ← truediv (a - mu)%float K;
  let ds_dt := ((a - mu) * s - q1 * s * (s + i + l) - beta * s * i)%float in
  q2 ← truediv (a - mu)%float K;
  let di_dt := (beta * s * i - (sigma + mu + q2 * (s + l + i)) * l)%float in
  q3 ← truediv (a - mu)%float K;
  let dl_dt := (sigma * l - (alpha + mu + q3 * (s + l + i)) * i)%float in
  mret [ds_dt; di_dt; dl_dt].

(** The specification's equations evaluated in binary64, [N = S + L + I]
    first. *)
Definition spec_N (S L I : float) : float := (S + L + I)%float.
Definition spec_dS (S L I a beta mu alpha sigma K : float) : float :=
  ((a - mu) * S - ((a - mu) / K) * S * spec_N S L I - beta * S * I)%float.
Definition spec_dL (S L I a beta mu alpha sigma K : float) : float :=
  (beta * S * I - (sigma + mu + ((a - mu) / K) * spec_N S L I) * L)%float.
Definition spec_dI (S L I a beta mu alpha sigma K : float) : float :=
  (sigma * L - (alpha + mu + ((a - mu) / K) * spec_N S L I) * I)%float.

(** The logistic law [(a - mu) * S * (1 - S / K)] evaluated in binary64. *)
Definition logistic (S a mu K : float) : float :=
  ((a - mu) * S * (1 - S / K))%float.

(** The first component of a returned triple, compared bit for bit. *)
Definition first_is (d : float) (r : result (list float)) : bool :=
  match r with
  | Ok (x :: _) => PrimFloat.Leibniz.eqb x d
  | _ => false
  end.

End binary64.

(** ** numpy: [linspace] and [ndarray.T] *)

Module np.

(** [np.linspace(start, stop, num)] with the default [endpoint=True]:
    [num] samples [start + k * step], [step = (stop - start) / (num - 1)].
    (For [num <= 1] the division is by zero; [Qc] gives [0], and the single
    sample is [start], as numpy returns.) *)
Definition linspace (start stop : Qc) (num : nat) : list Qc :=
  let div := (num - 1)%nat in
  let step := (stop - start) / of_nat div in
  (λ k, of_nat k * step + start) <$> seq 0 num.

(** Column [j] of a two-dimensional array held as a list of rows. *)
Definition column (j : nat) (rows : list (list Qc)) : list Qc :=
  (λ row, nth j row 0) <$> rows.

(** [a.T] for an array of shape (n, m) with n > 0, held as its n rows:
    the m columns.  (A list of rows cannot carry m when n = 0; the
    callback only transposes arrays with one row per grid point.) *)
Definition T (rows : list (list Qc)) : list (list Qc) :=
  match rows with
  | [] => []
  | r :: _ => (λ j, column j rows) <$> seq 0 (length r)
  end.

End np.

(** ** plotly.graph_objects: figures as heap objects *)

Module go.

(** [line=dict(color=..., width=..., dash=...)]; [dash] may be absent. *)
Record Line : Type := mkLine {
  color : string;
  width : nat;
  dash : option string
}.

(** [go.Scatter(x=..., y=..., name=..., line=...)]. *)
Record Scatter : Type := mkScatter {
  x : list Qc;
  y : list Qc;
  name : string;
  line : Line
}.

Record Layout : Type := mkLayout {
  title : option string;
  xaxis_title : option string;
  yaxis_title : option string
}.

Record Figure : Type := mkFigure {
  data : list Scatter;
  layout : Layout
}.

(** What [go.Figure()] holds: no trace, an empty layout. *)
Definition empty : Figure :=
  {| data := []; layout := mkLayout None None None |}.

End go.

(** A figure is a mutable object: [go.Figure()] allocates one, and
    [add_trace] and [update_layout] update it in place.  The callback
    therefore runs in a state-and-exception monad over the heap of figures. *)
Abbreviation loc := positive (only parsing).
Abbreviation heap := (gmap positive go.Figure) (only parsing).

Definition M (A : Type) : Type := heap → result A * heap.

#[global] Instance M_ret : MRet M := λ A a h, (Ok a, h).
#[global] Instance M_bind : MBind M := λ A B f m h,
  match m h with
  | (Ok a, h') => f a h'
  | (Raise e, h') => (Raise e, h')
  end.

(** A computation that only returns or raises, run inside [M]. *)
Definition lift {A : Type} (r : result A) : M A := λ h, (r, h).

(** [fig = go.Figure()] *)
Definition Figure_new : M loc := λ h,
  let fig := fresh (dom h) in (Ok fig, <[fig := go.empty]> h).

(** [fig.add_trace(tr)]: the trace is appended to the figure's data. *)
Definition add_trace (fig : loc) (tr : go.Scatter) : M unit := λ h,
  (Ok (), alter (λ f, go.mkFigure (go.data f ++ [tr]) (go.layout f)) fig h).

(** [fig.update_layout(title=..., xaxis_title=..., yaxis_title=...)] *)
Definition update_layout (fig : loc) (title xaxis_title yaxis_title : string)
  : M unit := λ h,
  (Ok (),
   alter (λ f, go.mkFigure (go.data f)
                 (go.mkLayout (Some title) (Some xaxis_title) (Some yaxis_title)))
         fig h).

(** ** scipy.integrate.odeint: the call interface *)

(** A Python callable invoked as [func(y, t, *args)]. *)
Definition pyfunc : Type := list Qc → Qc → list Qc → result (list Qc).

Module odeint.

(** The keyword arguments of one [odeint(func=, y0=, t=, args=)] call. *)
Record kwargs : Type := call {
  func : pyfunc;
  y0 : list Qc;
  t : list Qc;
  args : list Qc
}.

End odeint.

(** [ode_sys(y, t, *args)]: the six extra arguments are bound by position. *)
Definition ode_sys_star : pyfunc := λ state t args,
  match args with
  | [a; beta; mu; alpha; sigma; K] => ode_sys state t a beta mu alpha sigma K
  | _ => Raise TypeError
  end.

(** ** The callback: [gera_grafico] (app.py, lines 168-198) *)

Section Orchestrator.

(** The integrator, outside the repository. *)
Variable odeint : odeint.kwargs → result (list (list Qc)).

(** [def gera_grafico(s_init, i_init, l_init, a, beta, mu, alpha, sigma, K)]:
    the parameter names and their order are those of the source. *)
Definition gera_grafico (s_init i_init l_init a beta mu alpha sigma K : Qc)
  : M loc :=
  let t_begin := num 0 1 in
  let t_end := num 70 1 in
  let t_nsamples := 10000%nat in
  let t_eval := np.linspace t_begin t_end t_nsamples in
  sol ← lift (odeint {| odeint.func := ode_sys_star;
                        odeint.y0 := [s_init; i_init; l_init];
                        odeint.t := t_eval;
                        odeint.args := [a; beta; mu; alpha; sigma; K] |});
  '(s, l, i) ← lift (unpack3 (np.T sol));
  fig ← Figure_new;
  add_trace fig (go.mkScatter t_eval s "Suscetível"
                   (go.mkLine "#00b400" 4 None));;
  add_trace fig (go.mkScatter t_eval l "Latente"
                   (go.mkLine "#ff0000" 4 (Some "dot")));;
  add_trace fig (go.mkScatter t_eval i "Infectado"
                   (go.mkLine "#0000ff" 4 (Some "dashdot")));;
  update_layout fig "Dinâmica Modelo SLI" "Tempo (anos)" "Indivíduos";;
  mret fig.

(** The [Input]s of the [@app.callback] decorator, in their order. *)
Definition callback_inputs : list string :=
  ["s_init"; "l_init"; "i_init"; "a"; "beta"; "mu"; "alpha"; "sigma"; "K"].

(** Dash calls the decorated function with the current [value] of each
    [Input], positionally, in the order of the decorator's list; [ui] maps
    a component id to its current value.  The callback does not run
    ([None]) unless every listed component exists. *)
Definition population_chart (ui : gmap string Qc) : option (M loc) :=
  vals ← mapM (λ id, ui !! id) callback_inputs;
  match vals with
  | [v1; v2; v3; v4; v5; v6; v7; v8; v9] =>
      Some (gera_grafico v1 v2 v3 v4 v5 v6 v7 v8 v9)
  | _ => None
  end.

End Orchestrator.

(** The fixed time grid of the callback ([t_eval] in the source). *)
Definition time_grid : list Qc := np.linspace (num 0 1) (num 70 1) 10000.

(** The content of the figure object when the callback returns it, as a
    function of the three series: three traces added in the order
    [s], [l], [i], then the layout titles. *)
Definition population_figure (s l i : list Qc) : go.Figure :=
  {| go.data :=
       [ go.mkScatter time_grid s "Suscetível" (go.mkLine "#00b400" 4 None);
         go.mkScatter time_grid l "Latente"
           (go.mkLine "#ff0000" 4 (Some "dot"));
         go.mkScatter time_grid i "Infectado"
           (go.mkLine "#0000ff" 4 (Some "dashdot")) ];
     go.layout :=
       go.mkLayout (Some "Dinâmica Modelo SLI") (Some "Tempo (anos)")
                   (Some "Indivíduos") |}.

(** What the callback does with the integrator's answer [r]: an exception
    is passed on and nothing is allocated; a solution array is transposed,
    unpacked into three series and plotted in a fresh figure. *)
Definition plot (r : result (list (list Qc))) : M loc := λ h,
  match r with
  | Raise e => (Raise e, h)
  | Ok sol =>
      match unpack3 (np.T sol) with
      | Raise e => (Raise e, h)
      | Ok (s, l, i) =>
          (Ok (fresh (dom h)), <[fresh (dom h) := population_figure s l i]> h)
      end
  end.

(** ** The sliders of the layout (app.py, lines 83-159) *)

(** [dcc.Slider(id=..., min=..., max=..., value=...)] *)
Record Slider : Type := mkSlider {
  slider_id : string;
  slider_min : Qc;
  slider_max : Qc;
  slider_value : Qc
}.

Definition ajuste_condicoes_iniciais : list Slider :=
  [ mkSlider "s_init" (num 1 10) (num 5 1) (num 5 2);
    mkSlider "l_init" (num 0 1) (num 1 5) (num 1 10);
    mkSlider "i_init" (num 1 100) (num 1 5) (num 1 10) ].

Definition ajuste_parametros : list Slider :=
  [ mkSlider "a" (num 1 2) (num 3 1) (num 1 1);
    mkSlider "beta" (num 1 1) (num 150 1) (num 77 1);
    mkSlider "mu" (num 1 10) (num 9 10) (num 1 2);
    mkSlider "alpha" (num 1 1) (num 150 1) (num 73 1);
    mkSlider "sigma" (num 1 1) (num 25 1) (num 13 1);
    mkSlider "K" (num 1 10) (num 10 1) (num 2 1) ].

(** The component values when the page is first shown: every slider at its
    [value]. *)
Definition initial_ui : gmap string Qc :=
  list_to_map ((λ sl, (slider_id sl, slider_value sl)) <$>
               (ajuste_parametros ++ ajuste_condicoes_iniciais)).

(** Component values that the sliders can produce: every slider has a
    value between its [min] and its [max]. *)
Definition in_slider_ranges (ui : gmap string Qc) : Prop :=
  Forall (λ sl, ∃ v, ui !! slider_id sl = Some v ∧
                     slider_min sl ≤ v ∧ v ≤ slider_max sl)
         (ajuste_parametros ++ ajuste_condicoes_iniciais).

(** ** A reference integrator

    Explicit Euler on the given grid.  It is not what scipy runs (LSODA);
    it is a concrete integrator with the same call interface, used to show
    that the contract assumed of [odeint] below can be met. *)

Definition euler_step (h : Qc) (y dy : list Qc) : list Qc :=
  imap (λ j yj, yj + h * nth j dy 0) y.

Fixpoint euler_rows (f : pyfunc) (args y : list Qc) (t0 : Qc) (ts : list Qc)
  : result (list (list Qc)) :=
  match ts with
  | [] => mret []
  | t1 :: ts' =>
      dy ← f y t0 args;
      let y' := euler_step (t1 - t0) y dy in
      rows ← euler_rows f args y' t1 ts';
      mret (y' :: rows)
  end.

Definition euler_odeint (c : odeint.kwargs) : result (list (list Qc)) :=
  match odeint.t c with
  | [] => Raise ValueError
  | t0 :: ts =>
      _ ← odeint.func c (odeint.y0 c) t0 (odeint.args c);
      rows ← euler_rows (odeint.func c) (odeint.args c) (odeint.y0 c) t0 ts;
      mret (odeint.y0 c :: rows)
  end.

(** ** An integrator that gives up

    [odeint] allocates its result array without initialising it, writes the
    initial state into the first row and then one row per grid point as the
    solver advances; when the solver exhausts its step budget it stops with
    a warning, and the rows not yet written keep what the memory held (the
    specification calls the remainder undefined).  This model of that
    behaviour integrates as [euler_odeint] does over the first [mxstep]
    intervals and takes every later row from [mem], the content of the
    memory at the time of the call. *)
Definition odeint_mxstep (mxstep : nat) (mem : nat → list Qc)
    (c : odeint.kwargs) : result (list (list Qc)) :=
  rows ← euler_odeint {| odeint.func := odeint.func c;
                         odeint.y0 := odeint.y0 c;
                         odeint.t := take (S mxstep) (odeint.t c);
                         odeint.args := odeint.args c |};
  mret (rows ++
        ((λ k, resize (length (odeint.y0 c)) 0 (mem k)) <$>
         seq (length rows) (length (odeint.t c) - length rows))).

(** ** The contract assumed of [odeint]

    Three facts from scipy's documentation and behaviour, each used only
    where a theorem names it. *)

(** The result has shape [(len(t), len(y0))]. *)
Definition returns_shape (odeint : odeint.kwargs → result (list (list Qc)))
  : Prop :=
  ∀ c sol, odeint c = Ok sol →
    length sol = length (odeint.t c) ∧
    Forall (λ row, length row = length (odeint.y0 c)) sol.

(** On a non-empty increasing grid, with a [func] that returns [len(y0)]
    derivatives for every state of that size, [odeint] returns an array
    (solver difficulties are reported as warnings, not raised). *)
Definition returns_when_total (odeint : odeint.kwargs → result (list (list Qc)))
  : Prop :=
  ∀ c,
    odeint.t c ≠ [] → StronglySorted Qclt (odeint.t c) →
    (∀ y τ, length y = length (odeint.y0 c) →
            ∃ d, odeint.func c y τ (odeint.args c) = Ok d ∧
                 length d = length y) →
    ∃ sol, odeint c = Ok sol.

(** With at least two grid points there is something to integrate: [func]
    is first evaluated at the initial point, and an exception it raises
    there comes out of [odeint]. *)
Definition propagates_exceptions
    (odeint : odeint.kwargs → result (list (list Qc))) : Prop :=
  ∀ c t0 t1 ts e,
    odeint.t c = t0 :: t1 :: ts →
    odeint.func c (odeint.y0 c) t0 (odeint.args c) = Raise e →
    odeint c = Raise e.

(** The first row of the result is the initial state ("with the initial
    value [y0] in the first row"). *)
Definition starts_at_y0 (odeint : odeint.kwargs → result (list (list Qc)))
  : Prop :=
  ∀ c sol, odeint c = Ok sol → sol !! 0%nat = Some (odeint.y0 c).

(** The component values when every slider holds the value [v] gives for
    its id. *)
Definition slider_values (v : string → Qc) : gmap string Qc :=
  list_to_map ((λ sl, (slider_id sl, v (slider_id sl))) <$>
               (ajuste_parametros ++ ajuste_condicoes_iniciais)).

(** * Properties *)

(** ** Numbers *)

(** A closed (in)equation between rationals is settled by evaluation. *)
Ltac qc_decide := apply (bool_decide_unpack _); vm_compute; exact I.

Lemma of_nat_S (k : nat) : of_nat (S k) = of_nat k + 1.
Proof.
  unfold of_nat. apply Qc_is_canon. simpl.
  rewrite !Qred_correct, Nat2Z.inj_succ, <- Z.add_1_r, inject_Z_plus.
  reflexivity.
Qed.

Lemma of_nat_0 : of_nat 0 = 0.
Proof. by apply Qc_is_canon. Qed.

(** ** The model *)

Lemma truediv_ok (x y : Qc) : y ≠ 0 → truediv x y = Ok (x / y).
Proof. intros Hy. unfold truediv. by case_decide. Qed.

Lemma truediv_zero (x : Qc) : truediv x 0 = Raise ZeroDivisionError.
Proof. unfold truediv. by case_decide. Qed.

(** On a three-element state and a non-zero [K], the body runs to its
    [return] with the three expressions of the source. *)
Lemma ode_sys_ok (s l i t a beta mu alpha sigma K : Qc) :
  K ≠ 0 →
  ode_sys [s; l; i] t a beta mu alpha sigma K =
  Ok [ (a - mu) * s - (a - mu) / K * s * (s + i + l) - beta * s * i;
       beta * s * i - (sigma + mu + (a - mu) / K * (s + l + i)) * l;
       sigma * l - (alpha + mu + (a - mu) / K * (s + l + i)) * i ].
Proof.
  intros HK. unfold ode_sys. cbn [unpack3 mbind result_bind].
  by rewrite (truediv_ok _ _ HK).
Qed.

Lemma ode_sys_zero (s l i t a beta mu alpha sigma : Qc) :
  ode_sys [s; l; i] t a beta mu alpha sigma 0 = Raise ZeroDivisionError.
Proof.
  unfold ode_sys. cbn [unpack3 mbind result_bind]. by rewrite truediv_zero.
Qed.

(** Whatever the state list, the only exceptions are the unpacking error
    (state not of length three) and the division fault ([K = 0]). *)
Lemma ode_sys_raise (state : list Qc) (t a beta mu alpha sigma K : Qc)
    (e : exn) :
  ode_sys state t a beta mu alpha sigma K = Raise e →
  (e = ValueError ∧ length state ≠ 3%nat) ∨ (e = ZeroDivisionError ∧ K = 0).
Proof.
  destruct state as [|s [|l [|i [|]]]];
    try (cbn; intros [= <-]; left; done).
  destruct (decide (K = 0)) as [->|HK];
    [rewrite ode_sys_zero; intros [= <-]; by right|].
  by rewrite ode_sys_ok.
Qed.

Lemma ode_sys_length (state : list Qc) (t a beta mu alpha sigma K : Qc)
    (d : list Qc) :
  ode_sys state t a beta mu alpha sigma K = Ok d → length d = 3%nat.
Proof.
  destruct state as [|s [|l [|i [|]]]]; try (cbn; done).
  destruct (decide (K = 0)) as [->|HK]; [by rewrite ode_sys_zero|].
  rewrite ode_sys_ok by done. by intros [= <-].
Qed.

(** The three expressions of the source are the specification's: the sum
    [s + i + l] of the first one is [N], and the second and third entries
    of the returned list, which the source calls [di_dt] and [dl_dt], are
    the specification's dL/dt and dI/dt. *)
Lemma ode_sys_returns_spec (S L I t a beta mu alpha sigma K : Qc) :
  K ≠ 0 →
  ode_sys [S; L; I] t a beta mu alpha sigma K =
  Ok [ spec_dS S L I a beta mu alpha sigma K;
       spec_dL S L I a beta mu alpha sigma K;
       spec_dI S L I a beta mu alpha sigma K ].
Proof.
  intros HK. rewrite ode_sys_ok by done.
  unfold spec_dS, spec_dL, spec_dI, spec_N.
  do 2 f_equal. field. done.
Qed.

(** Sanity checks at the default slider values. *)
Example ode_sys_default :
  ode_sys [num 5 2; num 1 10; num 1 10] 0
          (num 1 1) (num 77 1) (num 1 2) (num 73 1) (num 13 1) (num 2 1) =
  Ok [num (-315) 16; num 7133 400; num (-2447) 400].
Proof. qc_decide. Qed.

Example ode_sys_default_K0 :
  ode_sys [num 5 2; num 1 10; num 1 10] 0
          (num 1 1) (num 77 1) (num 1 2) (num 73 1) (num 13 1) 0 =
  Raise ZeroDivisionError.
Proof. qc_decide. Qed.

Example ode_sys_short_state :
  ode_sys [num 5 2; num 1 10] 0
          (num 1 1) (num 77 1) (num 1 2) (num 73 1) (num 13 1) (num 2 1) =
  Raise ValueError.
Proof. qc_decide. Qed.

(** C6. For every state (S, L, I), negative components included, every time
    and every parameter set with K <> 0, [ode_sys] evaluates to a list of
    three derivatives and raises nothing; on such a state the only
    exception it can raise at all is the division fault, and only when
    K = 0.  (The embedding is a function of the state value: the body only
    reads [state], so the caller's list is the same after the call.) *)
Theorem ode_sys_total (S L I t a beta mu alpha sigma K : Qc) :
  K ≠ 0 →
  (∃ dS dL dI, ode_sys [S; L; I] t a beta mu alpha sigma K = Ok [dS; dL; dI]) ∧
  (∀ e, ode_sys [S; L; I] t a beta mu alpha sigma K ≠ Raise e) ∧
  (∀ K' e, ode_sys [S; L; I] t a beta mu alpha sigma K' = Raise e →
           e = ZeroDivisionError ∧ K' = 0).
Proof.
  intros HK. split_and!.
  - rewrite ode_sys_ok by done. by eexists _, _, _.
  - intros e. by rewrite ode_sys_ok.
  - intros K' e He. apply ode_sys_raise in He as [[_ Hlen]|?]; [|done].
    by contradict Hlen.
Qed.

Lemma ode_sys_total_witness :
  num 2 1 ≠ 0 ∧
  (∃ dS dL dI,
     ode_sys [num (-5) 2; num 1 10; num (-1) 10] 0
             (num 1 1) (num 77 1) (num 1 2) (num 73 1) (num 13 1) (num 2 1) =
     Ok [dS; dL; dI]).
Proof.
  split; [qc_decide|].
  apply (ode_sys_total (num (-5) 2) (num 1 10) (num (-1) 10) 0
           (num 1 1) (num 77 1) (num 1 2) (num 73 1) (num 13 1) (num 2 1)).
  qc_decide.
Defined.

(** The parameter [t] does not occur in the body. *)
Lemma ode_sys_ignores_time (state : list Qc)
    (t1 t2 a beta mu alpha sigma K : Qc) :
  ode_sys state t1 a beta mu alpha sigma K =
  ode_sys state t2 a beta mu alpha sigma K.
Proof. reflexivity. Qed.

(** C7. [ode_sys] is autonomous: for every state, every parameter set with
    K <> 0 and every two times t1 and t2, the evaluations at t1 and at t2
    return the same derivative triple. *)
Theorem ode_sys_autonomous (S L I t1 t2 a beta mu alpha sigma K : Qc) :
  K ≠ 0 →
  ∃ dS dL dI,
    ode_sys [S; L; I] t1 a beta mu alpha sigma K = Ok [dS; dL; dI] ∧
    ode_sys [S; L; I] t2 a beta mu alpha sigma K = Ok [dS; dL; dI].
Proof.
  intros HK. rewrite !ode_sys_ok by done. by eexists _, _, _.
Qed.

Lemma ode_sys_autonomous_witness :
  num 2 1 ≠ 0 ∧
  ∃ dS dL dI,
    ode_sys [num 5 2; num 1 10; num 1 10] (num 0 1)
            (num 1 1) (num 77 1) (num 1 2) (num 73 1) (num 13 1) (num 2 1) =
    Ok [dS; dL; dI] ∧
    ode_sys [num 5 2; num 1 10; num 1 10] (num 70 1)
            (num 1 1) (num 77 1) (num 1 2) (num 73 1) (num 13 1) (num 2 1) =
    Ok [dS; dL; dI].
Proof.
  split; [qc_decide|]. apply ode_sys_autonomous. qc_decide.
Defined.

(** ** The model in binary64 *)

Lemma ode_sys64_ok (s l i t a beta mu alpha sigma K : float) :
  (K =? 0)%float = false →
  binary64.ode_sys [s; l; i] t a beta mu alpha sigma K =
  Ok [ ((a - mu) * s - (a - mu) / K * s * (s + i + l) - beta * s * i)%float;
       (beta * s * i - (sigma + mu + (a - mu) / K * (s + l + i)) * l)%float;
       (sigma * l - (alpha + mu + (a - mu) / K * (s + l + i)) * i)%float ].
Proof.
  intros HK. unfold binary64.ode_sys, binary64.truediv.
  cbn [unpack3 mbind result_bind]. by rewrite HK.
Qed.

(** At the state (0.3, 0.1, 0.2) and the default rates the code returns
    dS/dt = -4.515, while the specification's expression, which sums N as
    S + L + I, gives -4.515000000000001: the sums 0.3 + 0.2 + 0.1 and
    0.3 + 0.1 + 0.2 round differently. *)
Lemma ode_sys64_not_spec_triple :
  binary64.ode_sys
    [0x1.3333333333333p-2; 0x1.999999999999ap-4; 0x1.999999999999ap-3]%float
    0 1 77 0.5 73 13 2 ≠
  Ok [ binary64.spec_dS 0x1.3333333333333p-2 0x1.999999999999ap-4
         0x1.999999999999ap-3 1 77 0.5 73 13 2;
       binary64.spec_dL 0x1.3333333333333p-2 0x1.999999999999ap-4
         0x1.999999999999ap-3 1 77 0.5 73 13 2;
       binary64.spec_dI 0x1.3333333333333p-2 0x1.999999999999ap-4
         0x1.999999999999ap-3 1 77 0.5 73 13 2 ].
Proof.
  intros H.
  apply (f_equal (binary64.first_is (binary64.spec_dS 0x1.3333333333333p-2
           0x1.999999999999ap-4 0x1.999999999999ap-3 1 77 0.5 73 13 2))) in H.
  vm_compute in H. discriminate H.
Qed.

(** C1. For K <> 0 [ode_sys] returns, in the order dS/dt, dL/dt, dI/dt, the
    values in binary64 of its three expressions: the second and the third
    are the specification's dL/dt and dI/dt with N = S + L + I; the first
    sums N in the order S + I + L, and is the specification's dS/dt
    whenever the two orders of summing N give the same float.  In exact
    arithmetic the three values are those of the specification's
    equations. *)
Theorem ode_sys_equations_as_computed
    (S L I t a beta mu alpha sigma K : float) :
  (K =? 0)%float = false →
  binary64.ode_sys [S; L; I] t a beta mu alpha sigma K =
    Ok [ ((a - mu) * S - (a - mu) / K * S * (S + I + L) - beta * S * I)%float;
         binary64.spec_dL S L I a beta mu alpha sigma K;
         binary64.spec_dI S L I a beta mu alpha sigma K ] ∧
  ((S + I + L)%float = (S + L + I)%float →
   binary64.ode_sys [S; L; I] t a beta mu alpha sigma K =
     Ok [ binary64.spec_dS S L I a beta mu alpha sigma K;
          binary64.spec_dL S L I a beta mu alpha sigma K;
          binary64.spec_dI S L I a beta mu alpha sigma K ]) ∧
  (∀ S' L' I' t' a' beta' mu' alpha' sigma' K' : Qc,
     K' ≠ 0 →
     ode_sys [S'; L'; I'] t' a' beta' mu' alpha' sigma' K' =
     Ok [ spec_dS S' L' I' a' beta' mu' alpha' sigma' K';
          spec_dL S' L' I' a' beta' mu' alpha' sigma' K';
          spec_dI S' L' I' a' beta' mu' alpha' sigma' K' ]).
Proof.
  intros HK. rewrite ode_sys64_ok by done.
  split; [done|]. split.
  - intros HN. unfold binary64.spec_dS, binary64.spec_N. by rewrite HN.
  - intros. by apply ode_sys_returns_spec.
Qed.

Lemma ode_sys_equations_as_computed_witness :
  (2 =? 0)%float = false ∧
  binary64.ode_sys [2.5; 0x1.999999999999ap-4; 0x1.999999999999ap-4]%float
                   0 1 77 0.5 73 13 2 =
    Ok [ ((1 - 0.5) * 2.5
          - (1 - 0.5) / 2 * 2.5
            * (2.5 + 0x1.999999999999ap-4 + 0x1.999999999999ap-4)
          - 77 * 2.5 * 0x1.999999999999ap-4)%float;
         binary64.spec_dL 2.5 0x1.999999999999ap-4 0x1.999999999999ap-4
           1 77 0.5 73 13 2;
         binary64.spec_dI 2.5 0x1.999999999999ap-4 0x1.999999999999ap-4
           1 77 0.5 73 13 2 ].
Proof.
  split; [reflexivity|].
  exact (proj1 (ode_sys_equations_as_computed
                  2.5 0x1.999999999999ap-4 0x1.999999999999ap-4
                  0 1 77 0.5 73 13 2 eq_refl)).
Defined.

(** *** Zeros in binary64 *)

Lemma Prim2SF_zero : Prim2SF 0 = S754_zero false.
Proof. reflexivity. Qed.

Lemma is_zero_spec (x : float) :
  is_zero x = true ↔ ∃ s, Prim2SF x = S754_zero s.
Proof.
  unfold is_zero. rewrite FloatAxioms.eqb_spec.
  change (Prim2SF zero) with (S754_zero false).
  destruct (Prim2SF x) as [s|s| |s m e]; cbn.
  - split; [by eexists|done].
  - split; [by destruct s|by intros [? ?]].
  - split; [done|by intros [? ?]].
  - split; [by destruct s|by intros [? ?]].
Qed.

Lemma is_finite_spec (x : float) :
  is_finite x = true →
  (∃ s, Prim2SF x = S754_zero s) ∨ (∃ s m e, Prim2SF x = S754_finite s m e).
Proof.
  unfold is_finite, is_nan, is_infinity. rewrite !FloatAxioms.eqb_spec, FloatAxioms.abs_spec.
  change (Prim2SF infinity) with (S754_infinity false).
  destruct (Prim2SF x) as [s|s| |s m e]; cbn.
  - intros _. left. by eexists.
  - by destruct s.
  - done.
  - intros _. right. by eexists _, _, _.
Qed.

(** A finite float times a zero is a zero. *)
Lemma mul_zero_r (x z : float) :
  is_finite x = true → is_zero z = true → is_zero (x * z) = true.
Proof.
  intros Hx [sz Hz]%is_zero_spec. apply is_zero_spec.
  rewrite FloatAxioms.mul_spec, Hz. unfold SF64mul.
  destruct (is_finite_spec x Hx) as [[s ->]|(s & m & e & ->)]; by eexists.
Qed.

(** The difference of two zeros is a zero. *)
Lemma sub_zero_zero (x y : float) :
  is_zero x = true → is_zero y = true → is_zero (x - y) = true.
Proof.
  intros [sx Hx]%is_zero_spec [sy Hy]%is_zero_spec. apply is_zero_spec.
  rewrite FloatAxioms.sub_spec, Hx, Hy. unfold SF64sub. destruct sx, sy; by eexists.
Qed.

(** *** The disease-free states *)

(** In exact arithmetic the derivatives at a disease-free state are the
    logistic law and two zeros. *)
Lemma disease_free_exact (S t a beta mu alpha sigma K : Qc) :
  K ≠ 0 →
  ode_sys [S; 0; 0] t a beta mu alpha sigma K =
  Ok [ (a - mu) * S * (1 - S / K); 0; 0 ].
Proof.
  intros HK. rewrite ode_sys_ok by done.
  f_equal. f_equal; [by field|]. f_equal; [by field|]. f_equal. by field.
Qed.

(** In binary64 neither part of the statement holds for all inputs.  At
    S = 4.9 and the default rates (all within the slider ranges) the
    susceptible derivative is -3.552500000000001, and the logistic law
    evaluates to -3.5525000000000007.  At S = 1e308, [beta * S] overflows to
    an infinity, and infinity times zero is a NaN: the latent derivative is
    a NaN, not zero. *)
Lemma disease_free_not_exact :
  binary64.ode_sys [0x1.399999999999ap+2; 0; 0]%float 0 1 77 0.5 73 13 2 ≠
    Ok [ binary64.logistic 0x1.399999999999ap+2 1 0.5 2; 0; 0 ]%float ∧
  ∃ dS dI,
    binary64.ode_sys [0x1.1ccf385ebc8ap+1023; 0; 0]%float 0 1 77 0.5 73 13 2 =
    Ok [dS; nan; dI].
Proof.
  split.
  - intros H.
    apply (f_equal (binary64.first_is
             (binary64.logistic 0x1.399999999999ap+2 1 0.5 2))) in H.
    vm_compute in H. discriminate H.
  - eexists _, _. vm_compute. reflexivity.
Qed.

(** C10. At a disease-free state [S; 0; 0] with K <> 0, whenever the
    products and sums that multiply the two zeros are finite (no overflow),
    the latent and the infectious derivative that the code returns are
    zeros, and the susceptible derivative is the value of the code's first
    expression; in exact arithmetic that expression is the logistic law
    (a - mu) * S * (1 - S / K), and the other two derivatives are 0. *)
Theorem disease_free_zero_derivatives (S t a beta mu alpha sigma K : float) :
  (K =? 0)%float = false →
  is_finite (beta * S) = true →
  is_finite sigma = true →
  is_finite (sigma + mu + (a - mu) / K * (S + 0 + 0)) = true →
  is_finite (alpha + mu + (a - mu) / K * (S + 0 + 0)) = true →
  (∃ dL dI,
     binary64.ode_sys [S; 0; 0]%float t a beta mu alpha sigma K =
       Ok [ ((a - mu) * S - (a - mu) / K * S * (S + 0 + 0)
             - beta * S * 0)%float; dL; dI ] ∧
     is_zero dL = true ∧ is_zero dI = true) ∧
  (∀ S' t' a' beta' mu' alpha' sigma' K' : Qc,
     K' ≠ 0 →
     ode_sys [S'; 0; 0] t' a' beta' mu' alpha' sigma' K' =
     Ok [ (a' - mu') * S' * (1 - S' / K'); 0; 0 ]).
Proof.
  intros HK Hbeta Hsigma HL HI. split.
  - rewrite ode_sys64_ok by done. eexists _, _. split; [reflexivity|].
    split; apply sub_zero_zero; by apply mul_zero_r.
  - intros. by apply disease_free_exact.
Qed.

Lemma disease_free_zero_derivatives_witness :
  (2 =? 0)%float = false ∧
  is_finite (77 * 2.5) = true ∧
  is_finite 13 = true ∧
  is_finite (13 + 0.5 + (1 - 0.5) / 2 * (2.5 + 0 + 0)) = true ∧
  is_finite (73 + 0.5 + (1 - 0.5) / 2 * (2.5 + 0 + 0)) = true ∧
  ∃ dL dI,
    binary64.ode_sys [2.5; 0; 0]%float 0 1 77 0.5 73 13 2 =
      Ok [ ((1 - 0.5) * 2.5 - (1 - 0.5) / 2 * 2.5 * (2.5 + 0 + 0)
            - 77 * 2.5 * 0)%float; dL; dI ] ∧
    is_zero dL = true ∧ is_zero dI = true.
Proof.
  split_and!; [reflexivity..|].
  exact (proj1 (disease_free_zero_derivatives 2.5 0 1 77 0.5 73 13 2
                  eq_refl eq_refl eq_refl eq_refl eq_refl)).
Defined.

(** ** The time grid *)

(** Large [nat] literals are kept folded by the parser; this equation hands
    them to [lia]. *)
Lemma n_samples_eq : 10000%nat = Z.to_nat 10000.
Proof. reflexivity. Qed.

Lemma n_last_eq : 9999%nat = Z.to_nat 9999.
Proof. reflexivity. Qed.

Ltac grid_lia := rewrite ?n_samples_eq, ?n_last_eq in *; lia.

Lemma length_linspace (start stop : Qc) (n : nat) :
  length (np.linspace start stop n) = n.
Proof. unfold np.linspace. by rewrite length_fmap, length_seq. Qed.

Lemma linspace_lookup (start stop : Qc) (n k : nat) :
  (k < n)%nat →
  np.linspace start stop n !! k =
  Some (of_nat k * ((stop - start) / of_nat (n - 1)) + start).
Proof.
  intros Hk. unfold np.linspace.
  by rewrite list_lookup_fmap, lookup_seq_lt.
Qed.

(** The step of the callback's grid: 70 / 9999. *)
Lemma time_grid_step :
  (num 70 1 - num 0 1) / of_nat (10000 - 1) = num 70 9999.
Proof. qc_decide. Qed.

Lemma time_grid_length : length time_grid = 10000%nat.
Proof. apply length_linspace. Qed.

Lemma time_grid_lookup (k : nat) :
  (k < 10000)%nat → time_grid !! k = Some (of_nat k * num 70 9999).
Proof.
  intros Hk. unfold time_grid. rewrite linspace_lookup by done.
  rewrite time_grid_step. f_equal.
  replace (num 0 1) with 0 by qc_decide. ring.
Qed.

Lemma time_grid_first : time_grid !! 0%nat = Some 0.
Proof.
  rewrite time_grid_lookup by grid_lia. f_equal. rewrite of_nat_0. ring.
Qed.

Lemma time_grid_last : time_grid !! 9999%nat = Some (num 70 1).
Proof. rewrite time_grid_lookup by grid_lia. f_equal. qc_decide. Qed.

Lemma time_grid_even (k : nat) :
  (S k < 10000)%nat →
  ∃ tk tk', time_grid !! k = Some tk ∧ time_grid !! S k = Some tk' ∧
            tk' - tk = num 70 9999.
Proof.
  intros Hk. rewrite !time_grid_lookup by grid_lia.
  eexists _, _. split_and!; [done..|]. rewrite of_nat_S. ring.
Qed.

Example linspace_five :
  np.linspace 0 (num 1 1) 5 = [0; num 1 4; num 1 2; num 3 4; num 1 1].
Proof. qc_decide. Qed.

Example linspace_one : np.linspace (num 3 1) (num 7 1) 1 = [num 3 1].
Proof. qc_decide. Qed.

(** ** Transposition of a solution array *)

Lemma length_column (j : nat) (rows : list (list Qc)) :
  length (np.column j rows) = length rows.
Proof. unfold np.column. by rewrite length_fmap. Qed.

Lemma T_three_columns (rows : list (list Qc)) :
  rows ≠ [] → Forall (λ row, length row = 3%nat) rows →
  np.T rows = [np.column 0 rows; np.column 1 rows; np.column 2 rows].
Proof.
  intros Hne Hrows. destruct rows as [|r rows]; [done|].
  unfold np.T. by rewrite (Forall_inv Hrows).
Qed.

(** ** Running the callback *)

Section Run.

Variable odeint : odeint.kwargs → result (list (list Qc)).

(** The callback is [plot] applied to the integrator's answer to one call,
    whose keyword arguments are built from the nine parameters. *)
Lemma gera_grafico_run (s_init i_init l_init a beta mu alpha sigma K : Qc)
    (h : gmap positive go.Figure) :
  gera_grafico odeint s_init i_init l_init a beta mu alpha sigma K h =
  plot (odeint {| odeint.func := ode_sys_star;
                  odeint.y0 := [s_init; i_init; l_init];
                  odeint.t := time_grid;
                  odeint.args := [a; beta; mu; alpha; sigma; K] |}) h.
Proof.
  unfold gera_grafico, plot, population_figure, time_grid. cbv zeta.
  generalize (np.linspace (num 0 1) (num 70 1) 10000). intros grid.
  unfold mbind, M_bind, lift.
  destruct (odeint _) as [sol|e]; [|done].
  destruct (unpack3 (np.T sol)) as [[[s l] i]|e]; [|done].
  unfold Figure_new, add_trace, update_layout, mret, M_ret.
  by rewrite !alter_insert_eq.
Qed.

(** The decorator hands the slider values over by position. *)
Lemma population_chart_run (ui : gmap string Qc)
    (s0 l0 i0 a beta mu alpha sigma K : Qc) :
  ui !! "s_init" = Some s0 → ui !! "l_init" = Some l0 →
  ui !! "i_init" = Some i0 →
  ui !! "a" = Some a → ui !! "beta" = Some beta → ui !! "mu" = Some mu →
  ui !! "alpha" = Some alpha → ui !! "sigma" = Some sigma →
  ui !! "K" = Some K →
  population_chart odeint ui =
  Some (gera_grafico odeint s0 l0 i0 a beta mu alpha sigma K).
Proof.
  intros Hs Hl Hi Ha Hbeta Hmu Halpha Hsigma HK.
  unfold population_chart, callback_inputs. cbn [mapM].
  by rewrite Hs, Hl, Hi, Ha, Hbeta, Hmu, Halpha, Hsigma, HK.
Qed.

End Run.

(** ** The reference integrator meets the contract *)

Lemma length_euler_step (h : Qc) (y dy : list Qc) :
  length (euler_step h y dy) = length y.
Proof. unfold euler_step. by rewrite length_imap. Qed.

Lemma euler_rows_shape (f : pyfunc) (args : list Qc) (ts : list Qc) :
  ∀ (y : list Qc) (t0 : Qc) (rows : list (list Qc)),
    euler_rows f args y t0 ts = Ok rows →
    length rows = length ts ∧ Forall (λ row, length row = length y) rows.
Proof.
  induction ts as [|t1 ts IH]; intros y t0 rows; cbn [euler_rows].
  - intros [= <-]. by split.
  - destruct (f y t0 args) as [dy|e]; cbn [mbind result_bind]; [|done].
    destruct (euler_rows f args _ t1 ts) as [rows'|e] eqn:Hrows;
      cbn [mbind result_bind]; [|done].
    intros [= <-]. apply IH in Hrows as [Hlen Hall].
    rewrite length_euler_step in Hall. split.
    + cbn. by rewrite Hlen.
    + constructor; [apply length_euler_step | done].
Qed.

Lemma euler_rows_returns (f : pyfunc) (args : list Qc) (n : nat)
    (ts : list Qc) :
  (∀ y τ, length y = n → ∃ d, f y τ args = Ok d ∧ length d = length y) →
  ∀ (y : list Qc) (t0 : Qc),
    length y = n → ∃ rows, euler_rows f args y t0 ts = Ok rows.
Proof.
  intros Hf. induction ts as [|t1 ts IH]; intros y t0 Hy; cbn [euler_rows].
  - by eexists.
  - destruct (Hf y t0 Hy) as (dy & -> & _). cbn [mbind result_bind].
    destruct (IH (euler_step (t1 - t0) y dy) t1) as [rows ->].
    { by rewrite length_euler_step. }
    by eexists.
Qed.

Lemma euler_returns_shape : returns_shape euler_odeint.
Proof.
  intros [f y0 ts args] sol. unfold euler_odeint.
  cbn [odeint.t odeint.func odeint.y0 odeint.args].
  destruct ts as [|t0 ts]; [done|].
  destruct (f y0 t0 args) as [dy|e]; cbn [mbind result_bind]; [|done].
  destruct (euler_rows f args y0 t0 ts) as [rows|e] eqn:Hrows;
    cbn [mbind result_bind]; [|done].
  intros [= <-]. apply euler_rows_shape in Hrows as [Hlen Hall]. split.
  - cbn. by rewrite Hlen.
  - by constructor.
Qed.

Lemma euler_returns_when_total : returns_when_total euler_odeint.
Proof.
  intros [f y0 ts args]. cbn [odeint.t odeint.func odeint.y0 odeint.args].
  intros Hne _ Hf. unfold euler_odeint.
  cbn [odeint.t odeint.func odeint.y0 odeint.args].
  destruct ts as [|t0 ts]; [done|].
  destruct (Hf y0 t0 eq_refl) as (dy & -> & _). cbn [mbind result_bind].
  destruct (euler_rows_returns f args (length y0) ts Hf y0 t0 eq_refl)
    as [rows ->].
  by eexists.
Qed.

Lemma euler_propagates_exceptions : propagates_exceptions euler_odeint.
Proof.
  intros [f y0 ts args] t0 t1 ts' e.
  cbn [odeint.t odeint.func odeint.y0 odeint.args].
  intros -> Hf. unfold euler_odeint.
  cbn [odeint.t odeint.func odeint.y0 odeint.args].
  by rewrite Hf.
Qed.

(** ** The grid is increasing *)

Lemma of_nat_lt (i j : nat) : (i < j)%nat → of_nat i < of_nat j.
Proof.
  intros Hij. unfold of_nat, Qclt. cbn [this Q2Qc].
  rewrite !Qred_correct. unfold Qlt. cbn. lia.
Qed.

Lemma sorted_fmap_seq (f : nat → Qc) :
  (∀ i j, (i < j)%nat → f i < f j) →
  ∀ n a, StronglySorted Qclt (f <$> seq a n).
Proof.
  intros Hf. induction n as [|n IH]; intros a; cbn [seq fmap list_fmap].
  - constructor.
  - constructor; [apply IH|].
    apply Forall_fmap, Forall_seq. intros j Hj. cbn. apply Hf. lia.
Qed.

Lemma time_grid_sorted : StronglySorted Qclt time_grid.
Proof.
  unfold time_grid, np.linspace. apply sorted_fmap_seq. intros i j Hij.
  rewrite time_grid_step.
  apply Qcplus_lt_mono_r, Qcmult_lt_compat_r; [qc_decide | by apply of_nat_lt].
Qed.

Lemma time_grid_cons : ∃ t1 ts, time_grid = 0 :: t1 :: ts.
Proof.
  pose proof time_grid_first as H0.
  pose proof (time_grid_lookup 1 ltac:(grid_lia)) as H1.
  destruct time_grid as [|t0 [|t1 ts]]; [done..|].
  injection H0 as ->. by eexists _, _.
Qed.

(** ** The model as the integrator calls it *)

Lemma ode_sys_star_args (state : list Qc) (τ a beta mu alpha sigma K : Qc) :
  ode_sys_star state τ [a; beta; mu; alpha; sigma; K] =
  ode_sys state τ a beta mu alpha sigma K.
Proof. reflexivity. Qed.

Lemma ode_sys_star_total (a beta mu alpha sigma K : Qc) :
  K ≠ 0 →
  ∀ y τ, length y = 3%nat →
    ∃ d, ode_sys_star y τ [a; beta; mu; alpha; sigma; K] = Ok d ∧
         length d = length y.
Proof.
  intros HK y τ Hy. destruct y as [|s [|l [|i [|]]]]; try done.
  rewrite ode_sys_star_args, ode_sys_ok by done. by eexists.
Qed.

(** ** What [plot] does to the heap *)

(** The outcome of [plot] is fixed by the integrator's answer: either an
    exception and an untouched heap, or one figure, of content independent
    of the heap, stored at a fresh location. *)
Lemma plot_cases (r : result (list (list Qc))) :
  (∃ e, ∀ h, plot r h = (Raise e, h)) ∨
  (∃ F, ∀ h, plot r h = (Ok (fresh (dom h)), <[fresh (dom h) := F]> h)).
Proof.
  unfold plot. destruct r as [sol|e]; [|left; by eexists].
  destruct (unpack3 (np.T sol)) as [[[s l] i]|e]; [right|left]; by eexists.
Qed.

Lemma plot_ok (sol : list (list Qc)) (h : gmap positive go.Figure) :
  sol ≠ [] → Forall (λ row, length row = 3%nat) sol →
  plot (Ok sol) h =
  (Ok (fresh (dom h)),
   <[fresh (dom h) :=
       population_figure (np.column 0 sol) (np.column 1 sol) (np.column 2 sol)]> h).
Proof.
  intros Hne Hrows. unfold plot. by rewrite T_three_columns.
Qed.

(** Two rows of a solution, plotted on an empty heap: the series are the
    columns, and an array of rows of another width is refused on unpacking. *)
Example plot_two_rows :
  ∃ fig h,
    plot (Ok [[num 1 1; num 2 1; num 3 1]; [num 4 1; num 5 1; num 6 1]]) ∅ =
      (Ok fig, h) ∧
    (λ F, go.y <$> go.data F) <$> h !! fig =
      Some [[num 1 1; num 4 1]; [num 2 1; num 5 1]; [num 3 1; num 6 1]].
Proof.
  eexists _, _. split; [reflexivity|].
  rewrite lookup_insert_eq. reflexivity.
Qed.

Example plot_two_columns (h : gmap positive go.Figure) :
  plot (Ok [[num 1 1; num 2 1]; [num 4 1; num 5 1]]) h = (Raise ValueError, h).
Proof. reflexivity. Qed.

Lemma fresh_lookup (h : gmap positive go.Figure) : h !! fresh (dom h) = None.
Proof. apply not_elem_of_dom, is_fresh. Qed.

(** ** The callback *)

Section Callback.

Variable odeint : odeint.kwargs → result (list (list Qc)).

(** C2. Whatever the nine slider values, the callback hands the integrator
    the initial state [s0; l0; i0]: the value of the susceptible slider in
    position S, of the latent slider in position L and of the infectious
    slider in position I, which is the order in which [ode_sys] unpacks
    its state, so that the model evaluated there is the specification's
    vector field at (S, L, I) = (s0, l0, i0).  (The source names the second
    and third parameters of [gera_grafico] [i_init] and [l_init]; the values
    they receive, by position, are those of the sliders [l_init] and
    [i_init].) *)
Theorem callback_initial_state (ui : gmap string Qc)
    (s0 l0 i0 a beta mu alpha sigma K : Qc) :
  ui !! "s_init" = Some s0 → ui !! "l_init" = Some l0 →
  ui !! "i_init" = Some i0 →
  ui !! "a" = Some a → ui !! "beta" = Some beta → ui !! "mu" = Some mu →
  ui !! "alpha" = Some alpha → ui !! "sigma" = Some sigma →
  ui !! "K" = Some K →
  ∃ run : M positive,
    population_chart odeint ui = Some run ∧
    (∀ h, run h =
          plot (odeint {| odeint.func := ode_sys_star;
                          odeint.y0 := [s0; l0; i0];
                          odeint.t := time_grid;
                          odeint.args := [a; beta; mu; alpha; sigma; K] |}) h) ∧
    unpack3 [s0; l0; i0] = Ok (s0, l0, i0) ∧
    (K ≠ 0 → ∀ τ,
       ode_sys_star [s0; l0; i0] τ [a; beta; mu; alpha; sigma; K] =
       Ok [ spec_dS s0 l0 i0 a beta mu alpha sigma K;
            spec_dL s0 l0 i0 a beta mu alpha sigma K;
            spec_dI s0 l0 i0 a beta mu alpha sigma K ]).
Proof.
  intros Hs Hl Hi Ha Hbeta Hmu Halpha Hsigma HK.
  eexists. split; [by apply population_chart_run|].
  split; [intros h; apply gera_grafico_run|].
  split; [done|].
  intros HK0 τ. rewrite ode_sys_star_args. by apply ode_sys_returns_spec.
Qed.

(** C3. On every invocation the six rate values reach the integrator as
    the tuple (a, beta, mu, alpha, sigma, K), which [func(y, t, *args)]
    binds to the parameters of [ode_sys] of the same names: the value of
    each rate slider plays the role of that name in the equations. *)
Theorem callback_rate_parameters (ui : gmap string Qc)
    (s0 l0 i0 a beta mu alpha sigma K : Qc) :
  ui !! "s_init" = Some s0 → ui !! "l_init" = Some l0 →
  ui !! "i_init" = Some i0 →
  ui !! "a" = Some a → ui !! "beta" = Some beta → ui !! "mu" = Some mu →
  ui !! "alpha" = Some alpha → ui !! "sigma" = Some sigma →
  ui !! "K" = Some K →
  ∃ run : M positive,
    population_chart odeint ui = Some run ∧
    (∀ h, run h =
          plot (odeint {| odeint.func := ode_sys_star;
                          odeint.y0 := [s0; l0; i0];
                          odeint.t := time_grid;
                          odeint.args := [a; beta; mu; alpha; sigma; K] |}) h) ∧
    (∀ state τ,
       ode_sys_star state τ [a; beta; mu; alpha; sigma; K] =
       ode_sys state τ a beta mu alpha sigma K) ∧
    (K ≠ 0 → ∀ S L I τ,
       ode_sys_star [S; L; I] τ [a; beta; mu; alpha; sigma; K] =
       Ok [ spec_dS S L I a beta mu alpha sigma K;
            spec_dL S L I a beta mu alpha sigma K;
            spec_dI S L I a beta mu alpha sigma K ]).
Proof.
  intros Hs Hl Hi Ha Hbeta Hmu Halpha Hsigma HK.
  eexists. split; [by apply population_chart_run|].
  split; [intros h; apply gera_grafico_run|].
  split; [done|].
  intros HK0 S L I τ. rewrite ode_sys_star_args.
  by apply ode_sys_returns_spec.
Qed.

End Callback.

Lemma callback_initial_state_witness :
  ∃ run : M positive,
    population_chart euler_odeint initial_ui = Some run ∧
    (∀ h, run h =
          plot (euler_odeint
                  {| odeint.func := ode_sys_star;
                     odeint.y0 := [num 5 2; num 1 10; num 1 10];
                     odeint.t := time_grid;
                     odeint.args := [num 1 1; num 77 1; num 1 2;
                                     num 73 1; num 13 1; num 2 1] |}) h) ∧
    unpack3 [num 5 2; num 1 10; num 1 10] = Ok (num 5 2, num 1 10, num 1 10) ∧
    (num 2 1 ≠ 0 → ∀ τ,
       ode_sys_star [num 5 2; num 1 10; num 1 10] τ
                    [num 1 1; num 77 1; num 1 2; num 73 1; num 13 1; num 2 1] =
       Ok [ spec_dS (num 5 2) (num 1 10) (num 1 10)
                    (num 1 1) (num 77 1) (num 1 2) (num 73 1) (num 13 1) (num 2 1);
            spec_dL (num 5 2) (num 1 10) (num 1 10)
                    (num 1 1) (num 77 1) (num 1 2) (num 73 1) (num 13 1) (num 2 1);
            spec_dI (num 5 2) (num 1 10) (num 1 10)
                    (num 1 1) (num 77 1) (num 1 2) (num 73 1) (num 13 1) (num 2 1) ]).
Proof.
  apply (callback_initial_state euler_odeint initial_ui); reflexivity.
Defined.

Lemma callback_rate_parameters_witness :
  ∃ run : M positive,
    population_chart euler_odeint initial_ui = Some run ∧
    (∀ h, run h =
          plot (euler_odeint
                  {| odeint.func := ode_sys_star;
                     odeint.y0 := [num 5 2; num 1 10; num 1 10];
                     odeint.t := time_grid;
                     odeint.args := [num 1 1; num 77 1; num 1 2;
                                     num 73 1; num 13 1; num 2 1] |}) h) ∧
    (∀ state τ,
       ode_sys_star state τ
                    [num 1 1; num 77 1; num 1 2; num 73 1; num 13 1; num 2 1] =
       ode_sys state τ (num 1 1) (num 77 1) (num 1 2) (num 73 1) (num 13 1)
               (num 2 1)) ∧
    (num 2 1 ≠ 0 → ∀ S L I τ,
       ode_sys_star [S; L; I] τ
                    [num 1 1; num 77 1; num 1 2; num 73 1; num 13 1; num 2 1] =
       Ok [ spec_dS S L I (num 1 1) (num 77 1) (num 1 2) (num 73 1) (num 13 1)
                    (num 2 1);
            spec_dL S L I (num 1 1) (num 77 1) (num 1 2) (num 73 1) (num 13 1)
                    (num 2 1);
            spec_dI S L I (num 1 1) (num 77 1) (num 1 2) (num 73 1) (num 13 1)
                    (num 2 1) ]).
Proof.
  apply (callback_rate_parameters euler_odeint initial_ui
           (num 5 2) (num 1 10) (num 1 10)); reflexivity.
Defined.

(** ** The grid, the series and the display metadata *)

Section Series.

Variable odeint : odeint.kwargs → result (list (list Qc)).
Hypothesis odeint_shape : returns_shape odeint.
Hypothesis odeint_total : returns_when_total odeint.

(** For a non-zero [K] the integrator answers the callback's call with an
    array of 10000 rows of three numbers. *)
Lemma odeint_solution (s0 l0 i0 a beta mu alpha sigma K : Qc) :
  K ≠ 0 →
  ∃ sol,
    odeint {| odeint.func := ode_sys_star;
              odeint.y0 := [s0; l0; i0];
              odeint.t := time_grid;
              odeint.args := [a; beta; mu; alpha; sigma; K] |} = Ok sol.
Proof.
  intros HK.
  apply odeint_total; cbn [odeint.t odeint.func odeint.y0 odeint.args].
  - destruct time_grid_cons as (t1 & ts & ->). done.
  - apply time_grid_sorted.
  - intros y τ Hy. by apply ode_sys_star_total.
Qed.

Lemma solution_shape (c : odeint.kwargs) (sol : list (list Qc)) :
  odeint.t c = time_grid → length (odeint.y0 c) = 3%nat →
  odeint c = Ok sol →
  length sol = 10000%nat ∧ sol ≠ [] ∧ Forall (λ row, length row = 3%nat) sol.
Proof.
  intros Ht Hy Hsol. apply odeint_shape in Hsol as [Hlen Hrows].
  rewrite Ht, time_grid_length in Hlen. rewrite Hy in Hrows.
  split_and!; [done| |done].
  intros ->. rewrite n_samples_eq in Hlen. cbn [length] in Hlen. lia.
Qed.

(** C4. On every invocation the grid handed to the integrator is the same
    list of 10000 points, from 0 to 70 with the constant step 70/9999,
    whatever the nine inputs; every figure the callback returns has three
    series of 10000 values each, plotted against that grid; and for a
    non-zero [K] the callback does return one. *)
Theorem time_grid_and_series (s0 l0 i0 a beta mu alpha sigma K : Qc)
    (h : gmap positive go.Figure) :
  (length time_grid = 10000%nat ∧
   time_grid !! 0%nat = Some 0 ∧
   time_grid !! 9999%nat = Some (num 70 1) ∧
   ∀ k, (S k < 10000)%nat →
        ∃ tk tk', time_grid !! k = Some tk ∧ time_grid !! S k = Some tk' ∧
                  tk' - tk = num 70 9999) ∧
  gera_grafico odeint s0 l0 i0 a beta mu alpha sigma K h =
    plot (odeint {| odeint.func := ode_sys_star;
                    odeint.y0 := [s0; l0; i0];
                    odeint.t := time_grid;
                    odeint.args := [a; beta; mu; alpha; sigma; K] |}) h ∧
  (∀ fig h',
     gera_grafico odeint s0 l0 i0 a beta mu alpha sigma K h = (Ok fig, h') →
     ∃ F, h' !! fig = Some F ∧
          length (go.data F) = 3%nat ∧
          Forall (λ tr, go.x tr = time_grid ∧
                        length (go.y tr) = length (go.x tr) ∧
                        length (go.y tr) = 10000%nat) (go.data F)) ∧
  (K ≠ 0 →
   ∃ fig h',
     gera_grafico odeint s0 l0 i0 a beta mu alpha sigma K h = (Ok fig, h')).
Proof.
  split.
  { split_and!; [apply time_grid_length | apply time_grid_first
                 | apply time_grid_last | apply time_grid_even]. }
  split; [apply gera_grafico_run|]. split.
  - intros fig h'. rewrite gera_grafico_run.
    destruct (odeint _) as [sol|e] eqn:Hsol; [|done].
    apply solution_shape in Hsol as (Hlen & Hne & Hrows); [|done..].
    rewrite plot_ok by done. intros [= <- <-].
    eexists. split; [apply lookup_insert_eq|].
    split; [done|]. cbn [go.data population_figure].
    repeat constructor; cbn [go.x go.y];
      by rewrite ?length_column, ?time_grid_length.
  - intros HK. rewrite gera_grafico_run.
    destruct (odeint_solution s0 l0 i0 a beta mu alpha sigma K HK) as [sol Hsol].
    rewrite Hsol.
    apply solution_shape in Hsol as (Hlen & Hne & Hrows); [|done..].
    rewrite plot_ok by done. by eexists _, _.
Qed.

(** C8. On every invocation that the integrator answers with a solution
    array, the callback returns a figure whose three series are the
    columns S, L and I of that array, named "Suscetível", "Latente" and
    "Infectado", each with its fixed colour, width and dash style, under
    the chart title "Dinâmica Modelo SLI" and the axis titles
    "Tempo (anos)" and "Indivíduos"; for a non-zero [K] the integrator
    does answer so. *)
Theorem figure_metadata (s0 l0 i0 a beta mu alpha sigma K : Qc)
    (h : gmap positive go.Figure) :
  (∀ sol,
     odeint {| odeint.func := ode_sys_star;
               odeint.y0 := [s0; l0; i0];
               odeint.t := time_grid;
               odeint.args := [a; beta; mu; alpha; sigma; K] |} = Ok sol →
     ∃ fig h',
       gera_grafico odeint s0 l0 i0 a beta mu alpha sigma K h = (Ok fig, h') ∧
       h' !! fig = Some
         {| go.data :=
              [ {| go.x := time_grid; go.y := np.column 0 sol;
                   go.name := "Suscetível";
                   go.line := {| go.color := "#00b400"; go.width := 4;
                                 go.dash := None |} |};
                {| go.x := time_grid; go.y := np.column 1 sol;
                   go.name := "Latente";
                   go.line := {| go.color := "#ff0000"; go.width := 4;
                                 go.dash := Some "dot" |} |};
                {| go.x := time_grid; go.y := np.column 2 sol;
                   go.name := "Infectado";
                   go.line := {| go.color := "#0000ff"; go.width := 4;
                                 go.dash := Some "dashdot" |} |} ];
            go.layout :=
              {| go.title := Some "Dinâmica Modelo SLI";
                 go.xaxis_title := Some "Tempo (anos)";
                 go.yaxis_title := Some "Indivíduos" |} |}) ∧
  (K ≠ 0 →
   ∃ sol,
     odeint {| odeint.func := ode_sys_star;
               odeint.y0 := [s0; l0; i0];
               odeint.t := time_grid;
               odeint.args := [a; beta; mu; alpha; sigma; K] |} = Ok sol).
Proof.
  split; [|apply odeint_solution].
  intros sol Hsol. rewrite gera_grafico_run, Hsol.
  apply solution_shape in Hsol as (Hlen & Hne & Hrows); [|done..].
  rewrite plot_ok by done. eexists _, _. split; [done|].
  apply lookup_insert_eq.
Qed.

(** The range of the [K] slider starts at 1/10. *)
Lemma slider_K_nonzero (K : Qc) : num 1 10 ≤ K → K ≠ 0.
Proof.
  intros HK ->. revert HK. apply Qclt_not_le. qc_decide.
Qed.

(** X14. At every setting of the sliders, the extremes of the ranges
    included, the callback runs and returns a figure with three series of
    10000 values each. *)
Corollary callback_in_range_returns (ui : gmap string Qc)
    (h : gmap positive go.Figure) :
  in_slider_ranges ui →
  ∃ (run : M positive) fig h' s l i,
    population_chart odeint ui = Some run ∧
    run h = (Ok fig, h') ∧
    h' !! fig = Some (population_figure s l i) ∧
    length s = 10000%nat ∧ length l = 10000%nat ∧ length i = 10000%nat.
Proof.
  unfold in_slider_ranges, ajuste_parametros, ajuste_condicoes_iniciais.
  cbn [app]. rewrite !Forall_cons. cbn [slider_id slider_min slider_max].
  intros ((a & Ha & _) & (beta & Hbeta & _) & (mu & Hmu & _) &
          (alpha & Halpha & _) & (sigma & Hsigma & _) & (K & HK & HKmin & _) &
          (s0 & Hs & _) & (l0 & Hl & _) & (i0 & Hi & _) & _).
  apply slider_K_nonzero in HKmin.
  destruct (odeint_solution s0 l0 i0 a beta mu alpha sigma K HKmin)
    as [sol Hsol].
  eexists _, _, _, _, _, _.
  split; [by apply population_chart_run|].
  rewrite gera_grafico_run, Hsol.
  apply solution_shape in Hsol as (Hlen & Hne & Hrows); [|done..].
  rewrite plot_ok by done.
  split; [done|]. split; [apply lookup_insert_eq|].
  by rewrite !length_column.
Qed.

End Series.

Lemma time_grid_and_series_witness :
  returns_shape euler_odeint ∧ returns_when_total euler_odeint ∧
  num 2 1 ≠ 0 ∧
  ∃ fig h' F,
    gera_grafico euler_odeint (num 5 2) (num 1 10) (num 1 10)
                 (num 1 1) (num 77 1) (num 1 2) (num 73 1) (num 13 1) (num 2 1)
                 ∅ = (Ok fig, h') ∧
    h' !! fig = Some F ∧
    length (go.data F) = 3%nat ∧
    Forall (λ tr, go.x tr = time_grid ∧
                  length (go.y tr) = length (go.x tr) ∧
                  length (go.y tr) = 10000%nat) (go.data F).
Proof.
  split; [apply euler_returns_shape|].
  split; [apply euler_returns_when_total|].
  split; [qc_decide|].
  destruct (time_grid_and_series euler_odeint
              euler_returns_shape euler_returns_when_total
              (num 5 2) (num 1 10) (num 1 10)
              (num 1 1) (num 77 1) (num 1 2) (num 73 1) (num 13 1) (num 2 1) ∅)
    as (_ & _ & Hseries & Hreturns).
  destruct Hreturns as (fig & h' & Hrun); [qc_decide|].
  destruct (Hseries fig h' Hrun) as (F & HF & Hlen & Hdata).
  exists fig, h', F. exact (conj Hrun (conj HF (conj Hlen Hdata))).
Defined.

Lemma figure_metadata_witness :
  returns_shape euler_odeint ∧ returns_when_total euler_odeint ∧
  num 2 1 ≠ 0 ∧
  ∃ sol fig h' F,
    euler_odeint {| odeint.func := ode_sys_star;
                    odeint.y0 := [num 5 2; num 1 10; num 1 10];
                    odeint.t := time_grid;
                    odeint.args := [num 1 1; num 77 1; num 1 2;
                                    num 73 1; num 13 1; num 2 1] |} = Ok sol ∧
    gera_grafico euler_odeint (num 5 2) (num 1 10) (num 1 10)
                 (num 1 1) (num 77 1) (num 1 2) (num 73 1) (num 13 1) (num 2 1)
                 ∅ = (Ok fig, h') ∧
    h' !! fig = Some F ∧
    go.name <$> go.data F = ["Suscetível"; "Latente"; "Infectado"] ∧
    go.y <$> go.data F = [np.column 0 sol; np.column 1 sol; np.column 2 sol].
Proof.
  split; [apply euler_returns_shape|].
  split; [apply euler_returns_when_total|].
  split; [qc_decide|].
  destruct (figure_metadata euler_odeint
              euler_returns_shape euler_returns_when_total
              (num 5 2) (num 1 10) (num 1 10)
              (num 1 1) (num 77 1) (num 1 2) (num 73 1) (num 13 1) (num 2 1) ∅)
    as (Hfig & Hsol).
  destruct Hsol as (sol & Hsol); [qc_decide|].
  destruct (Hfig sol Hsol) as (fig & h' & Hrun & HF).
  exists sol, fig, h'. eexists.
  split; [exact Hsol|]. split; [exact Hrun|]. split; [exact HF|].
  split; reflexivity.
Defined.

(** ** Faults *)

Section Faults.

Variable odeint : odeint.kwargs → result (list (list Qc)).

Hypothesis odeint_raises : propagates_exceptions odeint.

(** C9. No parameter is validated before the integration: whatever the
    nine values, zero or negative ones included, the callback calls the
    integrator on them as they are, and [ode_sys] applies the equations to
    rates of any sign.  With K = 0 the model raises [ZeroDivisionError] at
    every state, and the callback ends with that same exception, coming
    out of the integrator's first evaluation of the model, without
    allocating a figure. *)
Theorem no_parameter_validation (s0 l0 i0 a beta mu alpha sigma : Qc)
    (h : gmap positive go.Figure) :
  (∀ K,
     gera_grafico odeint s0 l0 i0 a beta mu alpha sigma K h =
     plot (odeint {| odeint.func := ode_sys_star;
                     odeint.y0 := [s0; l0; i0];
                     odeint.t := time_grid;
                     odeint.args := [a; beta; mu; alpha; sigma; K] |}) h) ∧
  (∀ K S L I τ, K ≠ 0 →
     ode_sys [S; L; I] τ a beta mu alpha sigma K =
     Ok [ spec_dS S L I a beta mu alpha sigma K;
          spec_dL S L I a beta mu alpha sigma K;
          spec_dI S L I a beta mu alpha sigma K ]) ∧
  (∀ S L I τ,
     ode_sys [S; L; I] τ a beta mu alpha sigma 0 = Raise ZeroDivisionError) ∧
  gera_grafico odeint s0 l0 i0 a beta mu alpha sigma 0 h =
    (Raise ZeroDivisionError, h).
Proof.
  split; [intros K; apply gera_grafico_run|].
  split; [intros K S L I τ HK; by apply ode_sys_returns_spec|].
  split; [intros S L I τ; apply ode_sys_zero|].
  rewrite gera_grafico_run.
  destruct time_grid_cons as (t1 & ts & Hgrid).
  rewrite (odeint_raises _ 0 t1 ts ZeroDivisionError); [done|done|].
  cbn [odeint.func odeint.y0 odeint.args].
  rewrite ode_sys_star_args. apply ode_sys_zero.
Qed.

End Faults.

Lemma no_parameter_validation_witness :
  propagates_exceptions euler_odeint ∧
  (ode_sys [num 5 2; num 1 10; num 1 10] 0
           (num (-1) 1) (num 77 1) (num 1 2) (num (-73) 1) (num 13 1) 0 =
   Raise ZeroDivisionError) ∧
  gera_grafico euler_odeint (num 5 2) (num 1 10) (num 1 10)
               (num (-1) 1) (num 77 1) (num 1 2) (num (-73) 1) (num 13 1) 0 ∅ =
  (Raise ZeroDivisionError, ∅).
Proof.
  split; [apply euler_propagates_exceptions|].
  destruct (no_parameter_validation euler_odeint euler_propagates_exceptions
              (num 5 2) (num 1 10) (num 1 10)
              (num (-1) 1) (num 77 1) (num 1 2) (num (-73) 1) (num 13 1) ∅)
    as (_ & _ & Hmodel & Hrun).
  split; [apply Hmodel | apply Hrun].
Defined.

(** * Further properties *)

(** ** The vector field *)

(** X1. Every outcome of [ode_sys], on a state list of any length: it returns
    exactly when the state has three components and [K] is not zero, and
    then returns as many derivatives as the state has components; a state
    of another length raises [ValueError], whatever [K] (the unpacking
    comes before the division); a three-component state with [K = 0] raises
    [ZeroDivisionError]; nothing else is raised. *)
Theorem ode_sys_outcome (state : list Qc) (t a beta mu alpha sigma K : Qc) :
  ((∃ d, ode_sys state t a beta mu alpha sigma K = Ok d) ↔
   length state = 3%nat ∧ K ≠ 0) ∧
  (∀ d, ode_sys state t a beta mu alpha sigma K = Ok d →
        length d = length state) ∧
  (∀ e, ode_sys state t a beta mu alpha sigma K = Raise e ↔
        (length state ≠ 3%nat ∧ e = ValueError) ∨
        (length state = 3%nat ∧ K = 0 ∧ e = ZeroDivisionError)).
Proof.
  destruct (decide (length state = 3%nat)) as [Hlen|Hlen].
  - destruct state as [|s [|l [|i [|]]]]; try done.
    destruct (decide (K = 0)) as [->|HK].
    + rewrite ode_sys_zero. split_and!.
      * split; [by intros [d ?] | by intros [_ ?]].
      * done.
      * intros e. split; [intros [= <-]; by right | intros [[? _]|(_ & _ & ->)]; done].
    + rewrite ode_sys_ok by done. split_and!.
      * split; [done | by eexists].
      * by intros d [= <-].
      * intros e. split; [done | intros [[? _]|(_ & ? & _)]; done].
  - assert (ode_sys state t a beta mu alpha sigma K = Raise ValueError) as ->.
    { by destruct state as [|s [|l [|i [|]]]]. }
    split_and!.
    + split; [by intros [d ?] | by intros [? _]].
    + done.
    + intros e. split; [intros [= <-]; by left | intros [[_ ->]|(? & _)]; done].
Qed.



(** ** The time grid handed to the integrator *)

Lemma of_nat_le (i j : nat) : (i ≤ j)%nat → of_nat i ≤ of_nat j.
Proof.
  intros Hij. unfold of_nat, Qcle. cbn [this Q2Qc].
  rewrite !Qred_correct. unfold Qle. cbn. lia.
Qed.

(** X8. The grid of every call is a valid integration grid: its points
    increase strictly (no time is repeated) and all lie between 0 and 70. *)
Theorem time_grid_valid :
  StronglySorted Qclt time_grid ∧
  (∀ τ, τ ∈ time_grid → 0 ≤ τ ∧ τ ≤ num 70 1).
Proof.
  split; [apply time_grid_sorted|].
  intros τ [k Hk]%list_elem_of_lookup_1.
  assert (k < 10000)%nat as Hlt.
  { apply lookup_lt_Some in Hk. by rewrite time_grid_length in Hk. }
  rewrite time_grid_lookup in Hk by done. injection Hk as <-.
  assert (0 ≤ num 70 9999) as Hstep by qc_decide.
  split.
  - apply Qcmult_nonneg_nonneg; [|done].
    rewrite <- of_nat_0. apply of_nat_le. lia.
  - replace (num 70 1) with (of_nat 9999 * num 70 9999) by qc_decide.
    apply Qcmult_le_mono_nonneg_r; [done|]. apply of_nat_le. grid_lia.
Qed.

(** ** The callback and the sliders *)

Section Sliders.

Variable odeint : odeint.kwargs → result (list (list Qc)).

(** X9. The decorator and the layout agree: the ids the decorator lists are
    the ids of the sliders, initial conditions first, and no slider id is
    used twice; so whatever values the nine sliders hold, the callback is
    called, and each parameter receives the value of the slider listed at
    its position. *)
Theorem callback_fires_on_sliders (v : string → Qc) :
  slider_id <$> (ajuste_condicoes_iniciais ++ ajuste_parametros) =
    callback_inputs ∧
  NoDup (slider_id <$> (ajuste_parametros ++ ajuste_condicoes_iniciais)) ∧
  population_chart odeint (slider_values v) =
  Some (gera_grafico odeint (v "s_init") (v "l_init") (v "i_init")
          (v "a") (v "beta") (v "mu") (v "alpha") (v "sigma") (v "K")).
Proof.
  split; [done|]. split; [|by apply population_chart_run].
  apply (bool_decide_unpack _). vm_compute. exact I.
Qed.

(** X10. A call changes the heap of figures by at most one allocation: when it
    returns, the figure is a new object (its location was free before) and
    every figure that existed is as it was; when it raises, the heap is
    unchanged, so no half-built figure is left behind. *)
Theorem gera_grafico_heap_effect (s0 l0 i0 a beta mu alpha sigma K : Qc)
    (h : gmap positive go.Figure) :
  match gera_grafico odeint s0 l0 i0 a beta mu alpha sigma K h with
  | (Ok fig, h') =>
      h !! fig = None ∧ is_Some (h' !! fig) ∧ delete fig h' = h
  | (Raise e, h') => h' = h
  end.
Proof.
  rewrite gera_grafico_run.
  destruct (plot_cases (odeint
    {| odeint.func := ode_sys_star; odeint.y0 := [s0; l0; i0];
       odeint.t := time_grid;
       odeint.args := [a; beta; mu; alpha; sigma; K] |}))
    as [[e He]|[F HF]].
  - by rewrite He.
  - rewrite HF. pose proof (fresh_lookup h) as Hfresh.
    split; [done|]. split; [by rewrite lookup_insert_eq|].
    by apply delete_insert_id.
Qed.

End Sliders.

(** ** The callback under the integrator's contract *)

Lemma euler_starts_at_y0 : starts_at_y0 euler_odeint.
Proof.
  intros [f y0 ts args] sol. unfold euler_odeint.
  cbn [odeint.t odeint.func odeint.y0 odeint.args].
  destruct ts as [|t0 ts]; [done|].
  destruct (f y0 t0 args) as [dy|e]; cbn [mbind result_bind]; [|done].
  destruct (euler_rows f args y0 t0 ts) as [rows|e];
    cbn [mbind result_bind]; [|done].
  by intros [= <-].
Qed.

Lemma column_lookup (j k : nat) (rows : list (list Qc)) (row : list Qc) :
  rows !! k = Some row → np.column j rows !! k = Some (nth j row 0).
Proof. intros Hk. unfold np.column. by rewrite list_lookup_fmap, Hk. Qed.

(** With [K = 0] the first evaluation of the model inside the integrator
    raises, and the callback ends with that exception. *)
Lemma gera_grafico_zero_K
    (odeint : odeint.kwargs → result (list (list Qc)))
    (s0 l0 i0 a beta mu alpha sigma : Qc) (h : gmap positive go.Figure) :
  propagates_exceptions odeint →
  gera_grafico odeint s0 l0 i0 a beta mu alpha sigma 0 h =
  (Raise ZeroDivisionError, h).
Proof.
  intros Hraises. rewrite gera_grafico_run.
  destruct time_grid_cons as (t1 & ts & Hgrid).
  rewrite (Hraises _ 0 t1 ts ZeroDivisionError); [done|done|].
  cbn [odeint.func odeint.y0 odeint.args].
  rewrite ode_sys_star_args. apply ode_sys_zero.
Qed.

Lemma in_slider_ranges_min :
  in_slider_ranges
    (list_to_map ((λ sl, (slider_id sl, slider_min sl)) <$>
                  (ajuste_parametros ++ ajuste_condicoes_iniciais))).
Proof.
  unfold in_slider_ranges, ajuste_parametros, ajuste_condicoes_iniciais.
  cbn [app]. repeat constructor;
    (eexists; split; [reflexivity|]; split; qc_decide).
Qed.

Section Contract.

Variable odeint : odeint.kwargs → result (list (list Qc)).
Hypothesis odeint_shape : returns_shape odeint.

(** X11. The callback raises nothing of its own: given the integrator's return
    shape, the transposition and the unpacking into three series cannot
    fail, so every exception that comes out of the callback is one the
    integrator raised on the callback's call. *)
Theorem gera_grafico_raises_only_from_odeint
    (s0 l0 i0 a beta mu alpha sigma K : Qc)
    (h h' : gmap positive go.Figure) (e : exn) :
  gera_grafico odeint s0 l0 i0 a beta mu alpha sigma K h = (Raise e, h') →
  odeint {| odeint.func := ode_sys_star;
            odeint.y0 := [s0; l0; i0];
            odeint.t := time_grid;
            odeint.args := [a; beta; mu; alpha; sigma; K] |} = Raise e.
Proof.
  rewrite gera_grafico_run.
  destruct (odeint _) as [sol|e'] eqn:Hsol.
  - apply (solution_shape odeint odeint_shape) in Hsol
      as (Hlen & Hne & Hrows); [|done..].
    by rewrite plot_ok.
  - cbn [plot]. by intros [= -> _].
Qed.

Hypothesis odeint_total : returns_when_total odeint.

(** X12. With the sliders at values [v] and a non-zero [K], each plotted series
    starts, at time 0, at the value of its own slider: "Suscetível" at the
    value of [s_init], "Latente" at that of [l_init] and "Infectado" at that
    of [i_init]. *)
Theorem series_start_at_slider_values (v : string → Qc)
    (h : gmap positive go.Figure) :
  starts_at_y0 odeint →
  v "K" ≠ 0 →
  ∃ (run : M positive) fig h' F,
    population_chart odeint (slider_values v) = Some run ∧
    run h = (Ok fig, h') ∧
    h' !! fig = Some F ∧
    (λ tr, (go.name tr, go.x tr !! 0%nat, go.y tr !! 0%nat)) <$> go.data F =
      [ ("Suscetível", Some 0, Some (v "s_init"));
        ("Latente", Some 0, Some (v "l_init"));
        ("Infectado", Some 0, Some (v "i_init")) ].
Proof.
  intros Hstart HK.
  destruct (odeint_solution odeint odeint_total
              (v "s_init") (v "l_init") (v "i_init")
              (v "a") (v "beta") (v "mu") (v "alpha") (v "sigma") (v "K") HK)
    as [sol Hsol].
  pose proof (Hstart _ _ Hsol) as Hrow. cbn [odeint.y0] in Hrow.
  exists (gera_grafico odeint (v "s_init") (v "l_init") (v "i_init")
            (v "a") (v "beta") (v "mu") (v "alpha") (v "sigma") (v "K")).
  eexists _, _, _.
  split; [by apply population_chart_run|].
  rewrite gera_grafico_run, Hsol.
  apply (solution_shape odeint odeint_shape) in Hsol
    as (Hlen & Hne & Hrows); [|done..].
  rewrite plot_ok by done.
  split; [done|]. split; [apply lookup_insert_eq|].
  cbn [population_figure go.data fmap list_fmap go.name go.x go.y].
  by rewrite time_grid_first, !(column_lookup _ _ _ _ Hrow).
Qed.

Hypothesis odeint_raises : propagates_exceptions odeint.

(** X13. Under the integrator's contract the callback fails on exactly one kind
    of input: it raises if and only if [K = 0], the exception is then
    [ZeroDivisionError], and the heap is left as it was. *)
Theorem gera_grafico_fails_iff_K_zero (s0 l0 i0 a beta mu alpha sigma K : Qc)
    (h h' : gmap positive go.Figure) (e : exn) :
  gera_grafico odeint s0 l0 i0 a beta mu alpha sigma K h = (Raise e, h') ↔
  K = 0 ∧ e = ZeroDivisionError ∧ h' = h.
Proof.
  split.
  - destruct (decide (K = 0)) as [->|HK].
    + rewrite gera_grafico_zero_K by done. by intros [= <- <-].
    + rewrite gera_grafico_run.
      destruct (odeint_solution odeint odeint_total
                  s0 l0 i0 a beta mu alpha sigma K HK) as [sol Hsol].
      rewrite Hsol.
      apply (solution_shape odeint odeint_shape) in Hsol
        as (Hlen & Hne & Hrows); [|done..].
      by rewrite plot_ok.
  - intros (-> & -> & ->). by apply gera_grafico_zero_K.
Qed.

End Contract.

Lemma gera_grafico_raises_only_from_odeint_witness :
  returns_shape euler_odeint ∧
  gera_grafico euler_odeint (num 5 2) (num 1 10) (num 1 10)
               (num 1 1) (num 77 1) (num 1 2) (num 73 1) (num 13 1) 0 ∅ =
    (Raise ZeroDivisionError, ∅) ∧
  euler_odeint {| odeint.func := ode_sys_star;
                  odeint.y0 := [num 5 2; num 1 10; num 1 10];
                  odeint.t := time_grid;
                  odeint.args := [num 1 1; num 77 1; num 1 2;
                                  num 73 1; num 13 1; 0] |} =
    Raise ZeroDivisionError.
Proof.
  split; [apply euler_returns_shape|].
  assert (gera_grafico euler_odeint (num 5 2) (num 1 10) (num 1 10)
            (num 1 1) (num 77 1) (num 1 2) (num 73 1) (num 13 1) 0 ∅ =
          (Raise ZeroDivisionError, ∅)) as Hrun.
  { apply gera_grafico_zero_K, euler_propagates_exceptions. }
  split; [exact Hrun|].
  exact (gera_grafico_raises_only_from_odeint euler_odeint
           euler_returns_shape _ _ _ _ _ _ _ _ _ _ _ _ Hrun).
Defined.

Lemma series_start_at_slider_values_witness :
  returns_shape euler_odeint ∧ returns_when_total euler_odeint ∧
  starts_at_y0 euler_odeint ∧
  (λ id, default 0 (initial_ui !! id)) "K" ≠ 0 ∧
  ∃ (run : M positive) fig h' F,
    population_chart euler_odeint
      (slider_values (λ id, default 0 (initial_ui !! id))) = Some run ∧
    run ∅ = (Ok fig, h') ∧
    h' !! fig = Some F ∧
    (λ tr, (go.name tr, go.x tr !! 0%nat, go.y tr !! 0%nat)) <$> go.data F =
      [ ("Suscetível", Some 0,
         Some ((λ id, default 0 (initial_ui !! id)) "s_init"));
        ("Latente", Some 0,
         Some ((λ id, default 0 (initial_ui !! id)) "l_init"));
        ("Infectado", Some 0,
         Some ((λ id, default 0 (initial_ui !! id)) "i_init")) ].
Proof.
  split; [apply euler_returns_shape|].
  split; [apply euler_returns_when_total|].
  split; [apply euler_starts_at_y0|].
  split; [qc_decide|].
  exact (series_start_at_slider_values euler_odeint
           euler_returns_shape euler_returns_when_total
           (λ id, default 0 (initial_ui !! id)) ∅ euler_starts_at_y0
           ltac:(qc_decide)).
Defined.

Lemma gera_grafico_fails_iff_K_zero_witness :
  returns_shape euler_odeint ∧ returns_when_total euler_odeint ∧
  propagates_exceptions euler_odeint ∧
  (gera_grafico euler_odeint (num 5 2) (num 1 10) (num 1 10)
                (num 1 1) (num 77 1) (num 1 2) (num 73 1) (num 13 1) 0 ∅ =
     (Raise ZeroDivisionError, ∅) ↔
   0 = 0 ∧ ZeroDivisionError = ZeroDivisionError ∧
   (∅ : gmap positive go.Figure) = ∅).
Proof.
  split; [apply euler_returns_shape|].
  split; [apply euler_returns_when_total|].
  split; [apply euler_propagates_exceptions|].
  apply (gera_grafico_fails_iff_K_zero euler_odeint
           euler_returns_shape euler_returns_when_total
           euler_propagates_exceptions).
Defined.

Lemma callback_in_range_returns_witness :
  returns_shape euler_odeint ∧ returns_when_total euler_odeint ∧
  in_slider_ranges
    (list_to_map ((λ sl, (slider_id sl, slider_min sl)) <$>
                  (ajuste_parametros ++ ajuste_condicoes_iniciais))) ∧
  ∃ (run : M positive) fig h' s l i,
    population_chart euler_odeint
      (list_to_map ((λ sl, (slider_id sl, slider_min sl)) <$>
                    (ajuste_parametros ++ ajuste_condicoes_iniciais))) =
      Some run ∧
    run ∅ = (Ok fig, h') ∧
    h' !! fig = Some (population_figure s l i) ∧
    length s = 10000%nat ∧ length l = 10000%nat ∧ length i = 10000%nat.
Proof.
  split; [apply euler_returns_shape|].
  split; [apply euler_returns_when_total|].
  split; [apply in_slider_ranges_min|].
  apply (callback_in_range_returns euler_odeint
           euler_returns_shape euler_returns_when_total).
  apply in_slider_ranges_min.
Defined.

(** ** State between calls *)
(** *** The integrator that gives up *)

Lemma StronglySorted_take {A : Type} (R : relation A) (l : list A) :
  StronglySorted R l → ∀ n, StronglySorted R (take n l).
Proof.
  induction 1 as [|x l Hl IH Hx]; intros [|n]; cbn [take];
    try constructor; [apply IH | by apply Forall_take].
Qed.

(** It meets everything this development assumes of [odeint], whatever the
    budget and the memory. *)
Lemma mxstep_returns_shape (n : nat) (mem : nat → list Qc) :
  returns_shape (odeint_mxstep n mem).
Proof.
  intros c sol. unfold odeint_mxstep.
  destruct (euler_odeint _) as [rows|e] eqn:Hrows;
    cbn [mbind result_bind mret result_ret]; [|done].
  intros [= <-]. apply euler_returns_shape in Hrows as [Hlen Hall].
  cbn [odeint.t odeint.y0] in Hlen, Hall.
  rewrite length_take in Hlen. split.
  - rewrite length_app, length_fmap, length_seq. lia.
  - apply Forall_app. split; [done|].
    apply Forall_fmap, Forall_forall. intros k _. cbn.
    by rewrite length_resize.
Qed.

Lemma mxstep_starts_at_y0 (n : nat) (mem : nat → list Qc) :
  starts_at_y0 (odeint_mxstep n mem).
Proof.
  intros c sol. unfold odeint_mxstep.
  destruct (euler_odeint _) as [rows|e] eqn:Hrows;
    cbn [mbind result_bind mret result_ret]; [|done].
  intros [= <-]. apply euler_starts_at_y0 in Hrows.
  cbn [odeint.y0] in Hrows. by apply lookup_app_l_Some.
Qed.

Lemma mxstep_returns_when_total (n : nat) (mem : nat → list Qc) :
  returns_when_total (odeint_mxstep n mem).
Proof.
  intros c Hne Hsorted Hf. unfold odeint_mxstep.
  destruct (euler_returns_when_total
              {| odeint.func := odeint.func c; odeint.y0 := odeint.y0 c;
                 odeint.t := take (S n) (odeint.t c);
                 odeint.args := odeint.args c |}) as [rows ->].
  - cbn [odeint.t]. by destruct (odeint.t c).
  - cbn [odeint.t]. by apply StronglySorted_take.
  - done.
  - by eexists.
Qed.

Lemma mxstep_propagates_exceptions (n : nat) (mem : nat → list Qc) :
  propagates_exceptions (odeint_mxstep n mem).
Proof.
  intros c t0 t1 ts e Ht Hf. unfold odeint_mxstep, euler_odeint.
  cbn [odeint.t odeint.func odeint.y0 odeint.args].
  by rewrite Ht, firstn_cons, Hf.
Qed.




